(** * hvac: the Active Directory secrets-engine client

    A shallow embedding of [hvac/api/secrets_engines/active_directory.py].
    Every method of the [ActiveDirectory] class builds a request path and,
    for POST, a JSON body, hands them to the adapter ([self._adapter]) and
    returns what the adapter returns.  The embedding keeps

    - Python values and dicts ([value], [gmap string value]);
    - the calling convention of a bound method (positional arguments,
      keyword arguments, defaults, [*args], [**kwargs]);
    - the class namespace, in which a later [def] rebinds an earlier one;
    - the adapter as an explicit collaborator, run in a state-and-exception
      monad whose state also records the requests handed to the adapter. *)

From Stdlib Require Import Ascii.
From stdpp Require Import gmap strings list fin_maps.

(** ** Python values *)

#[warnings="-register-all"]
Inductive value : Type :=
  | VNone
  | VBool (b : bool)
  | VInt (n : Z)
  | VStr (s : string)
  | VList (items : list value).

#[global] Instance value_inhabited : Inhabited value := populate VNone.

(** [v is None] *)
Definition is_none (v : value) : bool :=
  match v with VNone => true | _ => false end.

(** [d.update(other)]: every key of [other] is (re)bound in [d]. *)
Definition update (d other : gmap string value) : gmap string value := other ∪ d.

(** A dict display [{k1: v1, ..., kn: vn}]: the items are stored from left
    to right, a repeated key keeps the last value. *)
Definition dict (items : list (string * value)) : gmap string value :=
  foldl (λ d kv, <[kv.1 := kv.2]> d) ∅ items.

(** ** Exceptions *)

Inductive builtin : Type :=
  | TypeError
  | AttributeError
  | IndexError
  | KeyError
  | ValueError.

(** What a call can raise: an exception of the interpreter, or whatever
    the adapter raised. *)
Inductive exception (Exn : Type) : Type :=
  | Raised (e : builtin)
  | AdapterFailure (e : Exn).
Arguments Raised {Exn} e.
Arguments AdapterFailure {Exn} e.

(** ** Requests and the adapter *)

Inductive request : Type :=
  | Get (url : string)
  | Post (url : string) (json : gmap string value)
  | Delete (url : string)
  | List (url : string).

Definition request_url (r : request) : string :=
  match r with Get u | Post u _ | Delete u | List u => u end.

(** [self._adapter]: four entry points, each of which answers with a
    response or raises, and may change the outside world. *)
Record Adapter (World Resp Exn : Type) : Type := {
  serve_get : string → World → (Exn + Resp) * World;
  serve_post : string → gmap string value → World → (Exn + Resp) * World;
  serve_delete : string → World → (Exn + Resp) * World;
  serve_list : string → World → (Exn + Resp) * World;
}.
Arguments serve_get {World Resp Exn} _ _ _.
Arguments serve_post {World Resp Exn} _ _ _ _.
Arguments serve_delete {World Resp Exn} _ _ _.
Arguments serve_list {World Resp Exn} _ _ _.

(** The state threaded through a call: the outside world and the requests
    handed to the adapter so far, oldest first. *)
Record session (World : Type) : Type := {
  world : World;
  sent : list request;
}.
Arguments Build_session {World} _ _.
Arguments world {World} _.
Arguments sent {World} _.

(** ** The calling convention *)

Record signature : Type := {
  parameters : list (string * option value);  (* name, default if any *)
  var_positional : bool;                      (* has [*args] *)
  var_keyword : bool;                         (* has [**kwargs] *)
}.

Record frame : Type := {
  locals : gmap string value;
  star_args : list value;
  star_kwargs : gmap string value;
}.

Definition parameter_names (sg : signature) : list string := (parameters sg).*1.

(** The value the caller supplied for the [i]-th parameter, if any. *)
Definition supplied (args : list value) (kw : gmap string value)
    (i : nat) (name : string) : option value :=
  match args !! i with
  | Some v => Some v
  | None => kw !! name
  end.

(** Binds the parameters from position [i] on.  [None] is a [TypeError]:
    a parameter given both positionally and by keyword, or a parameter
    without default that was not given. *)
Fixpoint bind_parameters (ps : list (string * option value)) (i : nat)
    (args : list value) (kw : gmap string value) : option (gmap string value) :=
  match ps with
  | [] => Some ∅
  | (name, default) :: ps' =>
      match args !! i, kw !! name with
      | Some _, Some _ => None
      | Some v, None | None, Some v =>
          insert name v <$> bind_parameters ps' (S i) args kw
      | None, None =>
          match default with
          | Some v => insert name v <$> bind_parameters ps' (S i) args kw
          | None => None
          end
      end
  end.

(** Binding the arguments of a bound-method call with positional arguments
    [args] and keyword arguments [kw].
    [self] is already bound, so a keyword of that name is a duplicate. *)
Definition bind (sg : signature) (args : list value) (kw : gmap string value)
    : option frame :=
  let names := parameter_names sg in
  if bool_decide ("self" ∈ dom kw) then None
  else if negb (var_positional sg) && bool_decide (length names < length args)
  then None
  else if negb (var_keyword sg) && negb (bool_decide (dom kw ⊆ list_to_set names))
  then None
  else
    l ← bind_parameters (parameters sg) 0 args kw;
    Some {| locals := l;
            star_args := drop (length names) args;
            star_kwargs := filter (λ kv, kv.1 ∉ names) kw |}.

(** ** [hvac.utils] *)

(** Modelled from the spec: [utils.remove_nones] ([hvac/utils.py] is not
    among the sources).  The spec calls it null-stripping: a parameter is
    merged into the body when its value is not absent, and a false, zero or
    empty value is not absent. *)
Definition remove_nones (params : gmap string value) : gmap string value :=
  omap (λ v, if is_none v then None else Some v) params.

(** [str.format] restricted to the replacement fields the templates of this
    module use: [{}] takes the next positional argument, [{name}] the
    keyword argument [name].  [field] is the text read since an open
    brace, if one is open. *)
Definition prepend (a : string) (r : builtin + string) : builtin + string :=
  match r with inl e => inl e | inr s => inr (a +:+ s) end.

Fixpoint format (tpl : string) (field : option string)
    (args : list string) (kwargs : gmap string string) : builtin + string :=
  match tpl with
  | EmptyString =>
      match field with None => inr EmptyString | Some _ => inl ValueError end
  | String c rest =>
      match field with
      | None =>
          if Ascii.eqb c "{"%char then format rest (Some EmptyString) args kwargs
          else prepend (String c EmptyString) (format rest None args kwargs)
      | Some name =>
          if Ascii.eqb c "}"%char then
            match name with
            | EmptyString =>
                match args with
                | a :: args' => prepend a (format rest None args' kwargs)
                | [] => inl IndexError
                end
            | _ =>
                match kwargs !! name with
                | Some a => prepend a (format rest None args kwargs)
                | None => inl KeyError
                end
            end
          else format rest (Some (name +:+ String c EmptyString)) args kwargs
      end
  end.

(** ** Instances used to run the client on concrete calls *)

(** Strings are put into the path verbatim. *)
Definition verbatim (v : value) : string :=
  match v with VStr s => s | _ => EmptyString end.

(** An adapter over a trivial world that answers every request with a
    status code: 200 to GET and LIST, 204 to POST and DELETE. *)
Definition status_adapter : Adapter unit Z unit := {|
  serve_get := λ _ w, (inr 200%Z, w);
  serve_post := λ _ _ w, (inr 204%Z, w);
  serve_delete := λ _ w, (inr 204%Z, w);
  serve_list := λ _ w, (inr 200%Z, w);
|}.

(** An adapter whose every entry point raises. *)
Definition failing_adapter : Adapter unit Z string := {|
  serve_get := λ _ w, (inl "connection refused", w);
  serve_post := λ _ _ w, (inl "connection refused", w);
  serve_delete := λ _ w, (inl "connection refused", w);
  serve_list := λ _ w, (inl "connection refused", w);
|}.

Definition fresh : session unit := {| world := tt; sent := [] |}.

(** ** The client *)

Definition DEFAULT_MOUNT_POINT : string := "ad".

Section ActiveDirectory.
Context {World Resp Exn : Type}.

(** How [utils.format_url] renders an argument into path text.
    [hvac/utils.py] is not among the sources and the spec does not say, so
    every statement below holds for any rendering. *)
Variable url_quote : value → string.

(** [self._adapter] *)
Variable _adapter : Adapter World Resp Exn.

(** Computations that may raise and that thread the session. *)
Definition M (A : Type) : Type :=
  session World → (exception Exn + A) * session World.

Definition ret {A} (a : A) : M A := λ s, (inr a, s).

Definition raise {A} (e : builtin) : M A := λ s, (inl (Raised e), s).

Definition and_then {A B} (m : M A) (k : A → M B) : M B :=
  λ s, match m s with
       | (inl e, s') => (inl e, s')
       | (inr a, s') => k a s'
       end.

#[local] Instance M_bind : MBind M := λ A B k m, and_then m k.

(** What the adapter does with a request. *)
Definition transmit (r : request) (w : World) : (Exn + Resp) * World :=
  match r with
  | Get url => serve_get _adapter url w
  | Post url json => serve_post _adapter url json w
  | Delete url => serve_delete _adapter url w
  | List url => serve_list _adapter url w
  end.

(** One call of an adapter entry point: the request is recorded, the
    adapter's answer is the answer and what it raises is raised. *)
Definition perform (r : request) : M Resp :=
  λ s, let '(answer, w) := transmit r (world s) in
       (match answer with
        | inl e => inl (AdapterFailure e)
        | inr response => inr response
        end,
        {| world := w; sent := sent s ++ [r] |}).

Definition adapter_get (url : string) : M Resp := perform (Get url).
Definition adapter_post (url : string) (json : gmap string value) : M Resp :=
  perform (Post url json).
Definition adapter_delete (url : string) : M Resp := perform (Delete url).
Definition adapter_list (url : string) : M Resp := perform (List url).

(** Modelled from the spec: [utils.format_url] ([hvac/utils.py] is not
    among the sources).  The spec says that the mount point, like the
    name, is substituted into the path template: the rendered arguments
    fill the replacement fields of [format_str]. *)
Definition format_url (format_str : string) (args : list value)
    (kwargs : gmap string value) : M string :=
  match format format_str None (url_quote <$> args) (url_quote <$> kwargs) with
  | inl e => raise e
  | inr path => ret path
  end.

(** *** The methods, in the order of the class body *)

Definition configure (binddn bindpass url userdn upndomain ttl max_ttl
    mount_point : value) (args : list value) (kwargs : gmap string value)
    : M Resp :=
  let params := remove_nones (dict [
    ("binddn", binddn);
    ("bindpass", bindpass);
    ("url", url);
    ("userdn", userdn);
    ("upndomain", upndomain);
    ("ttl", ttl);
    ("max_ttl", max_ttl)
  ]) in
  let params := update params kwargs in
  api_path ← format_url "/v1/{mount_point}/config" []
               {["mount_point" := mount_point]};
  adapter_post api_path params.

Definition read_config (mount_point : value) : M Resp :=
  api_path ← format_url "/v1/{mount_point}/config" []
               {["mount_point" := mount_point]};
  adapter_get api_path.

Definition create_or_update_role (name service_account_name ttl
    mount_point : value) : M Resp :=
  api_path ← format_url "/v1/{}/roles/{}" [mount_point; name] ∅;
  let params := dict [("name", name)] in
  let params := update params (remove_nones (dict [
    ("service_account_name", service_account_name);
    ("ttl", ttl)
  ])) in
  adapter_post api_path params.

Definition read_role (name mount_point : value) : M Resp :=
  api_path ← format_url "/v1/{}/roles/{}" [mount_point; name] ∅;
  adapter_get api_path.

Definition list_roles (mount_point : value) : M Resp :=
  api_path ← format_url "/v1/{}/roles" [mount_point] ∅;
  adapter_list api_path.

(** The [delete_role] defined at line 136 of the source. *)
Definition delete_role_136 (name mount_point : value) : M Resp :=
  api_path ← format_url "/v1/{}/roles/{}" [mount_point; name] ∅;
  adapter_delete api_path.

Definition list_libraries (mount_point : value) : M Resp :=
  api_path ← format_url "v1/{}/library" [mount_point] ∅;
  adapter_list api_path.

Definition read_library (name mount_point : value) : M Resp :=
  api_path ← format_url "/v1/{}/library/{}" [mount_point; name] ∅;
  adapter_get api_path.

Definition create_or_update_library (name service_account_names ttl max_ttl
    disable_check_in_enforcement mount_point : value) : M Resp :=
  api_path ← format_url "/v1/{}/library/{}" [mount_point; name] ∅;
  let params := dict [("service_account_names", service_account_names)] in
  let params := update params (remove_nones (dict [
    ("ttl", ttl);
    ("max_ttl", max_ttl);
    ("disable_check_in_enforcement", disable_check_in_enforcement)
  ])) in
  adapter_post api_path params.

(** The [delete_role] defined at line 220 of the source. *)
Definition delete_role_220 (name mount_point : value) : M Resp :=
  api_path ← format_url "/v1/{}/library/{}" [mount_point; name] ∅;
  adapter_delete api_path.

Definition get_library_status (name mount_point : value) : M Resp :=
  api_path ← format_url "/v1/{}/library/{}/status" [mount_point; name] ∅;
  adapter_get api_path.

Definition check_out_service_account (name ttl mount_point : value) : M Resp :=
  api_path ← format_url "/v1/{}/library/{}/check-out" [mount_point; name] ∅;
  let params := dict [] in
  let params := update params (remove_nones (dict [("ttl", ttl)])) in
  adapter_post api_path params.

Definition check_in_service_account (name service_account_names
    mount_point : value) : M Resp :=
  api_path ← format_url "/v1/{}/library/{}/check-in" [mount_point; name] ∅;
  let params := dict [] in
  let params := update params (remove_nones (dict [
    ("service_account_names", service_account_names)
  ])) in
  adapter_post api_path params.

(** *** The class *)

Record method : Type := {
  method_signature : signature;
  method_body : frame → M Resp;
}.

(** A [def] without [*args] and [**kwargs]. *)
Definition plain (ps : list (string * option value)) : signature :=
  {| parameters := ps; var_positional := false; var_keyword := false |}.

(** The local variable [name] of a frame. *)
Definition local (f : frame) (name : string) : value := locals f !!! name.

Definition mount_point_parameter : string * option value :=
  ("mount_point", Some (VStr DEFAULT_MOUNT_POINT)).

Definition def_configure : method := {|
  method_signature := {|
    parameters := [("binddn", Some VNone); ("bindpass", Some VNone);
                   ("url", Some VNone); ("userdn", Some VNone);
                   ("upndomain", Some VNone); ("ttl", Some VNone);
                   ("max_ttl", Some VNone); mount_point_parameter];
    var_positional := true;
    var_keyword := true |};
  method_body := λ f,
    configure (local f "binddn") (local f "bindpass") (local f "url")
      (local f "userdn") (local f "upndomain") (local f "ttl")
      (local f "max_ttl") (local f "mount_point")
      (star_args f) (star_kwargs f) |}.

Definition def_read_config : method := {|
  method_signature := plain [mount_point_parameter];
  method_body := λ f, read_config (local f "mount_point") |}.

Definition def_create_or_update_role : method := {|
  method_signature := plain [("name", None);
    ("service_account_name", Some VNone); ("ttl", Some VNone);
    mount_point_parameter];
  method_body := λ f,
    create_or_update_role (local f "name") (local f "service_account_name")
      (local f "ttl") (local f "mount_point") |}.

Definition def_read_role : method := {|
  method_signature := plain [("name", None); mount_point_parameter];
  method_body := λ f, read_role (local f "name") (local f "mount_point") |}.

Definition def_list_roles : method := {|
  method_signature := plain [mount_point_parameter];
  method_body := λ f, list_roles (local f "mount_point") |}.

Definition def_delete_role_136 : method := {|
  method_signature := plain [("name", None); mount_point_parameter];
  method_body := λ f,
    delete_role_136 (local f "name") (local f "mount_point") |}.

Definition def_list_libraries : method := {|
  method_signature := plain [mount_point_parameter];
  method_body := λ f, list_libraries (local f "mount_point") |}.

Definition def_read_library : method := {|
  method_signature := plain [("name", None); mount_point_parameter];
  method_body := λ f, read_library (local f "name") (local f "mount_point") |}.

Definition def_create_or_update_library : method := {|
  method_signature := plain [("name", None);
    ("service_account_names", Some VNone); ("ttl", Some VNone);
    ("max_ttl", Some VNone); ("disable_check_in_enforcement", Some VNone);
    mount_point_parameter];
  method_body := λ f,
    create_or_update_library (local f "name")
      (local f "service_account_names") (local f "ttl") (local f "max_ttl")
      (local f "disable_check_in_enforcement") (local f "mount_point") |}.

Definition def_delete_role_220 : method := {|
  method_signature := plain [("name", None); mount_point_parameter];
  method_body := λ f,
    delete_role_220 (local f "name") (local f "mount_point") |}.

Definition def_get_library_status : method := {|
  method_signature := plain [("name", None); mount_point_parameter];
  method_body := λ f,
    get_library_status (local f "name") (local f "mount_point") |}.

Definition def_check_out_service_account : method := {|
  method_signature := plain [("name", None); ("ttl", Some VNone);
    mount_point_parameter];
  method_body := λ f,
    check_out_service_account (local f "name") (local f "ttl")
      (local f "mount_point") |}.

Definition def_check_in_service_account : method := {|
  method_signature := plain [("name", None);
    ("service_account_names", Some VNone); mount_point_parameter];
  method_body := λ f,
    check_in_service_account (local f "name")
      (local f "service_account_names") (local f "mount_point") |}.

(** The [def] statements of the class body, in source order. *)
Definition class_body : list (string * method) := [
  ("configure", def_configure);
  ("read_config", def_read_config);
  ("create_or_update_role", def_create_or_update_role);
  ("read_role", def_read_role);
  ("list_roles", def_list_roles);
  ("delete_role", def_delete_role_136);
  ("list_libraries", def_list_libraries);
  ("read_library", def_read_library);
  ("create_or_update_library", def_create_or_update_library);
  ("delete_role", def_delete_role_220);
  ("get_library_status", def_get_library_status);
  ("check_out_service_account", def_check_out_service_account);
  ("check_in_service_account", def_check_in_service_account)
].

(** Executing the class body binds each name in turn; a name bound twice
    keeps the later function. *)
Definition ActiveDirectory : gmap string method :=
  foldl (λ namespace d, <[d.1 := d.2]> namespace) ∅ class_body.

(** [client.name(args, kw)] on an instance of the class, for a name looked
    up in the class body.  The attributes that the class inherits from
    [VaultApiBase] and [object] are not part of this file and are not
    modelled. *)
Definition call (name : string) (args : list value)
    (kw : gmap string value) : M Resp :=
  match ActiveDirectory !! name with
  | None => raise AttributeError
  | Some m =>
      match bind (method_signature m) args kw with
      | None => raise TypeError
      | Some f => method_body m f
      end
  end.

(** *** Vocabulary of the statements *)

(** [m] hands exactly the request [r] to the adapter, once, and its outcome
    is the adapter's: the response returned as it is, or the failure
    raised as it is. *)
Definition exactly_one_request (m : M Resp) (r : request) : Prop :=
  ∀ s, m s =
    (match (transmit r (world s)).1 with
     | inl e => inl (AdapterFailure e)
     | inr response => inr response
     end,
     {| world := (transmit r (world s)).2; sent := sent s ++ [r] |}).

(** [m] raises [e] before anything reaches the adapter. *)
Definition rejected (m : M Resp) (e : builtin) : Prop :=
  ∀ s, m s = (inl (Raised e), s).

(** What the None-filter leaves of a value. *)
Definition kept (v : value) : option value :=
  if is_none v then None else Some v.

(** The optional parameters that end up in a JSON body: the operation,
    the position and name of the parameter (the body key has the same
    name), and whether the value passes through [remove_nones]. *)
Definition body_parameters : list (string * nat * string * bool) := [
  ("configure", 0, "binddn", true);
  ("configure", 1, "bindpass", true);
  ("configure", 2, "url", true);
  ("configure", 3, "userdn", true);
  ("configure", 4, "upndomain", true);
  ("configure", 5, "ttl", true);
  ("configure", 6, "max_ttl", true);
  ("create_or_update_role", 1, "service_account_name", true);
  ("create_or_update_role", 2, "ttl", true);
  ("create_or_update_library", 1, "service_account_names", false);
  ("create_or_update_library", 2, "ttl", true);
  ("create_or_update_library", 3, "max_ttl", true);
  ("create_or_update_library", 4, "disable_check_in_enforcement", true);
  ("check_out_service_account", 1, "ttl", true);
  ("check_in_service_account", 1, "service_account_names", true)
].

(** The reading of the body rule under which a key is left out exactly
    when the caller did not supply the parameter, for the [i]-th
    parameter [key] of [op] in the call [op(args, kw)]. *)
Definition omitted_iff_not_supplied (op : string) (i : nat) (key : string)
    (args : list value) (kw : gmap string value) : Prop :=
  ∀ s url json,
    sent (call op args kw s).2 = sent s ++ [Post url json] →
    (json !! key = None ↔ supplied args kw i key = None).

(** The HTTP verb of a request. *)
Inductive verb : Type := GET | POST | DELETE | LIST.

Definition request_verb (r : request) : verb :=
  match r with
  | Get _ => GET
  | Post _ _ => POST
  | Delete _ => DELETE
  | List _ => LIST
  end.

(** The value a parameter takes in a call: what the caller supplied,
    positionally or by keyword, and its default otherwise; [None] when it
    has neither. *)
Definition argument (args : list value) (kw : gmap string value)
    (i : nat) (p : string * option value) : option value :=
  match supplied args kw i p.1 with
  | Some v => Some v
  | None => p.2
  end.

(** ** Facts *)

Lemma perform_exactly_one r : exactly_one_request (perform r) r.
Proof. intros s. unfold perform. by destruct (transmit r (world s)). Qed.

Lemma after_format_url tpl args kw path path' (k : string → M Resp) r :
  format tpl None (url_quote <$> args) (url_quote <$> kw) = inr path' →
  path' = path →
  exactly_one_request (k path) r →
  exactly_one_request (format_url tpl args kw ≫= k) r.
Proof.
  intros Hpath <- Hk s. rewrite <- (Hk s).
  unfold mbind, M_bind, and_then, format_url. by rewrite Hpath.
Qed.

(** *** Strings and dicts *)

Lemma append_empty_r (a : string) : a +:+ "" = a.
Proof.
  induction a as [|c a IH]; [done|].
  change (String c (a +:+ "") = String c a). by rewrite IH.
Qed.

Lemma lookup_remove_nones (d : gmap string value) key :
  remove_nones d !! key =
    match d !! key with
    | Some v => if is_none v then None else Some v
    | None => None
    end.
Proof. unfold remove_nones. rewrite lookup_omap. by destruct (d !! key). Qed.

Lemma lookup_update (d other : gmap string value) key :
  update d other !! key =
    match other !! key with Some v => Some v | None => d !! key end.
Proof.
  unfold update. rewrite lookup_union.
  by destruct (other !! key), (d !! key).
Qed.

(** *** The calling convention *)

Lemma bind_parameters_lookup ps i args kw l :
  bind_parameters ps i args kw = Some l →
  NoDup ps.*1 →
  ∀ j name d, ps !! j = Some (name, d) →
    l !! name =
      match supplied args kw (i + j) name with
      | Some v => Some v
      | None => d
      end.
Proof.
  revert i l. induction ps as [|[n0 d0] ps IH]; intros i l Hbind Hnd j name d Hj.
  { by rewrite lookup_nil in Hj. }
  rewrite fmap_cons, NoDup_cons in Hnd. destruct Hnd as [Hn0 Hnd].
  simpl in Hn0, Hbind.
  assert (∃ v l', l = <[n0 := v]> l' ∧ bind_parameters ps (S i) args kw = Some l'
            ∧ Some v = match supplied args kw i n0 with
                       | Some v => Some v | None => d0 end)
    as (v & l' & -> & Hl' & Hv).
  { unfold supplied.
    destruct (args !! i) as [a|], (kw !! n0) as [k|]; try done.
    - destruct (bind_parameters ps (S i) args kw) as [l'|]; [|done].
      injection Hbind as <-. by exists a, l'.
    - destruct (bind_parameters ps (S i) args kw) as [l'|]; [|done].
      injection Hbind as <-. by exists k, l'.
    - destruct d0 as [v|]; [|done].
      destruct (bind_parameters ps (S i) args kw) as [l'|]; [|done].
      injection Hbind as <-. by exists v, l'. }
  destruct j as [|j]; simpl in Hj.
  - injection Hj as <- <-. rewrite lookup_insert_eq, Nat.add_0_r. done.
  - assert (n0 ≠ name).
    { intros ->. apply Hn0. apply list_elem_of_lookup. exists j.
      by rewrite list_lookup_fmap, Hj. }
    rewrite lookup_insert_ne by done.
    rewrite (IH _ _ Hl' Hnd j name d Hj). by rewrite Nat.add_succ_comm.
Qed.

Lemma bind_parameters_once ps i args kw l :
  bind_parameters ps i args kw = Some l →
  ∀ j name d, ps !! j = Some (name, d) →
    args !! (i + j) = None ∨ kw !! name = None.
Proof.
  revert i l. induction ps as [|[n0 d0] ps IH]; intros i l Hbind j name d Hj.
  { by rewrite lookup_nil in Hj. }
  simpl in Hbind. destruct j as [|j]; simpl in Hj.
  - injection Hj as <- <-. rewrite Nat.add_0_r.
    destruct (args !! i), (kw !! n0); auto. done.
  - rewrite <- Nat.add_succ_comm.
    destruct (args !! i), (kw !! n0); try done;
      try (destruct d0; [|done]);
      destruct (bind_parameters ps (S i) args kw) eqn:E; try done;
      eapply IH; eauto.
Qed.

Lemma bind_Some sg args kw f :
  bind sg args kw = Some f →
  bind_parameters (parameters sg) 0 args kw = Some (locals f)
  ∧ star_args f = drop (length (parameter_names sg)) args
  ∧ star_kwargs f = filter (λ kv, kv.1 ∉ parameter_names sg) kw.
Proof.
  unfold bind. repeat case_match; try done.
  destruct (bind_parameters _ _ _ _) as [l|]; [|done].
  simpl. by intros [= <-].
Qed.

(** The local variable of a parameter is what the caller supplied for it,
    positionally or by keyword, and its default otherwise. *)
Lemma bind_local sg args kw f i name d :
  bind sg args kw = Some f →
  NoDup (parameter_names sg) →
  parameters sg !! i = Some (name, Some d) →
  local f name = default d (supplied args kw i name).
Proof.
  intros (Hl & _)%bind_Some Hnd Hi.
  pose proof (bind_parameters_lookup _ _ _ _ _ Hl Hnd i name (Some d) Hi) as H.
  unfold local. rewrite lookup_total_alt, H. simpl.
  by destruct (supplied args kw i name).
Qed.

(** What lands in [**kwargs]: the keywords that name no parameter. *)
Lemma bind_star_kwargs sg args kw f key :
  bind sg args kw = Some f →
  star_kwargs f !! key =
    if decide (key ∈ parameter_names sg) then None else kw !! key.
Proof.
  intros (_ & _ & ->)%bind_Some.
  destruct (kw !! key) as [v|] eqn:Hkey.
  - case_decide.
    + apply map_lookup_filter_None. right. intros v' _. simpl. tauto.
    + apply map_lookup_filter_Some. done.
  - case_decide; apply map_lookup_filter_None; by left.
Qed.

Lemma lookup_dict_snoc items key v key' :
  dict (items ++ [(key, v)]) !! key' =
    if decide (key = key') then Some v else dict items !! key'.
Proof. unfold dict. rewrite foldl_snoc. simpl. apply lookup_insert. Qed.

Lemma lookup_dict_None items key : key ∉ items.*1 → dict items !! key = None.
Proof.
  induction items as [|[k v] items IH] using rev_ind; intros Hkey.
  { apply lookup_empty. }
  rewrite fmap_app, elem_of_app in Hkey. simpl in Hkey.
  rewrite lookup_dict_snoc. case_decide as Hk.
  - subst. exfalso. apply Hkey. right. apply list_elem_of_singleton. done.
  - apply IH. tauto.
Qed.

(** *** One request per method *)

Ltac one_request :=
  eapply after_format_url;
  [ reflexivity
  | cbn; rewrite ?append_empty_r; reflexivity
  | apply perform_exactly_one ].

Lemma configure_request binddn bindpass url userdn upndomain ttl max_ttl
    mount_point args kwargs :
  exactly_one_request
    (configure binddn bindpass url userdn upndomain ttl max_ttl mount_point
       args kwargs)
    (Post ("/v1/" +:+ url_quote mount_point +:+ "/config")
       (update (remove_nones (dict [
          ("binddn", binddn); ("bindpass", bindpass); ("url", url);
          ("userdn", userdn); ("upndomain", upndomain); ("ttl", ttl);
          ("max_ttl", max_ttl)])) kwargs)).
Proof. unfold configure. one_request. Qed.

Lemma read_config_request mount_point :
  exactly_one_request (read_config mount_point)
    (Get ("/v1/" +:+ url_quote mount_point +:+ "/config")).
Proof. unfold read_config. one_request. Qed.

Lemma create_or_update_role_request name service_account_name ttl mount_point :
  exactly_one_request
    (create_or_update_role name service_account_name ttl mount_point)
    (Post ("/v1/" +:+ url_quote mount_point +:+ "/roles/" +:+ url_quote name)
       (update (dict [("name", name)]) (remove_nones (dict [
          ("service_account_name", service_account_name); ("ttl", ttl)])))).
Proof. unfold create_or_update_role. one_request. Qed.

Lemma read_role_request name mount_point :
  exactly_one_request (read_role name mount_point)
    (Get ("/v1/" +:+ url_quote mount_point +:+ "/roles/" +:+ url_quote name)).
Proof. unfold read_role. one_request. Qed.

Lemma list_roles_request mount_point :
  exactly_one_request (list_roles mount_point)
    (List ("/v1/" +:+ url_quote mount_point +:+ "/roles")).
Proof. unfold list_roles. one_request. Qed.

Lemma delete_role_136_request name mount_point :
  exactly_one_request (delete_role_136 name mount_point)
    (Delete ("/v1/" +:+ url_quote mount_point +:+ "/roles/" +:+ url_quote name)).
Proof. unfold delete_role_136. one_request. Qed.

Lemma list_libraries_request mount_point :
  exactly_one_request (list_libraries mount_point)
    (List ("v1/" +:+ url_quote mount_point +:+ "/library")).
Proof. unfold list_libraries. one_request. Qed.

Lemma read_library_request name mount_point :
  exactly_one_request (read_library name mount_point)
    (Get ("/v1/" +:+ url_quote mount_point +:+ "/library/" +:+ url_quote name)).
Proof. unfold read_library. one_request. Qed.

Lemma create_or_update_library_request name service_account_names ttl max_ttl
    disable_check_in_enforcement mount_point :
  exactly_one_request
    (create_or_update_library name service_account_names ttl max_ttl
       disable_check_in_enforcement mount_point)
    (Post ("/v1/" +:+ url_quote mount_point +:+ "/library/" +:+ url_quote name)
       (update (dict [("service_account_names", service_account_names)])
          (remove_nones (dict [
             ("ttl", ttl); ("max_ttl", max_ttl);
             ("disable_check_in_enforcement", disable_check_in_enforcement)])))).
Proof. unfold create_or_update_library. one_request. Qed.

Lemma delete_role_220_request name mount_point :
  exactly_one_request (delete_role_220 name mount_point)
    (Delete ("/v1/" +:+ url_quote mount_point +:+ "/library/" +:+ url_quote name)).
Proof. unfold delete_role_220. one_request. Qed.

Lemma get_library_status_request name mount_point :
  exactly_one_request (get_library_status name mount_point)
    (Get ("/v1/" +:+ url_quote mount_point +:+ "/library/" +:+ url_quote name
          +:+ "/status")).
Proof. unfold get_library_status. one_request. Qed.

Lemma check_out_service_account_request name ttl mount_point :
  exactly_one_request (check_out_service_account name ttl mount_point)
    (Post ("/v1/" +:+ url_quote mount_point +:+ "/library/" +:+ url_quote name
           +:+ "/check-out")
       (update (dict []) (remove_nones (dict [("ttl", ttl)])))).
Proof. unfold check_out_service_account. one_request. Qed.

Lemma check_in_service_account_request name service_account_names mount_point :
  exactly_one_request
    (check_in_service_account name service_account_names mount_point)
    (Post ("/v1/" +:+ url_quote mount_point +:+ "/library/" +:+ url_quote name
           +:+ "/check-in")
       (update (dict []) (remove_nones (dict [
          ("service_account_names", service_account_names)])))).
Proof. unfold check_in_service_account. one_request. Qed.

(** *** The class namespace and calls *)

Lemma namespace_methods name m :
  ActiveDirectory !! name = Some m →
  (name, m) ∈ [
    ("configure", def_configure);
    ("read_config", def_read_config);
    ("create_or_update_role", def_create_or_update_role);
    ("read_role", def_read_role);
    ("list_roles", def_list_roles);
    ("list_libraries", def_list_libraries);
    ("read_library", def_read_library);
    ("create_or_update_library", def_create_or_update_library);
    ("delete_role", def_delete_role_220);
    ("get_library_status", def_get_library_status);
    ("check_out_service_account", def_check_out_service_account);
    ("check_in_service_account", def_check_in_service_account)].
Proof.
  unfold ActiveDirectory, class_body. simpl foldl.
  rewrite !lookup_insert_Some, lookup_empty. simpl.
  rewrite !elem_of_cons, elem_of_nil. intros H.
  repeat (destruct H as [[<- <-]|[? H]];
          [first [congruence | repeat (first [left; reflexivity | right])]|]).
  done.
Qed.

Lemma call_bound name m args kw f :
  ActiveDirectory !! name = Some m →
  bind (method_signature m) args kw = Some f →
  call name args kw = method_body m f.
Proof. intros Hm Hf. unfold call. by rewrite Hm, Hf. Qed.

Lemma call_unbound name m args kw :
  ActiveDirectory !! name = Some m →
  bind (method_signature m) args kw = None →
  rejected (call name args kw) TypeError.
Proof. intros Hm Hf s. unfold call. by rewrite Hm, Hf. Qed.

Lemma exactly_one_request_sent m r s :
  exactly_one_request m r → sent (m s).2 = sent s ++ [r].
Proof. intros H. by rewrite (H s). Qed.

Lemma sent_request_inj m r r' s :
  exactly_one_request m r → sent (m s).2 = sent s ++ [r'] → r' = r.
Proof.
  intros H. rewrite (exactly_one_request_sent m r s H).
  intros E%app_inv_head. by injection E.
Qed.

Ltac each_method H :=
  apply namespace_methods in H;
  repeat (apply elem_of_cons in H as [[= -> ->]|H]);
  [..| by apply elem_of_nil in H].

(** Every method bound in the class hands one request to the adapter; its
    path is the mount point rendered after [v1/], with a leading slash
    for every method but [list_libraries]. *)
Lemma method_request name m f :
  ActiveDirectory !! name = Some m →
  ∃ r lead rest,
    exactly_one_request (method_body m f) r
    ∧ request_url r
      = lead +:+ "v1/" +:+ url_quote (local f "mount_point") +:+ "/" +:+ rest
    ∧ (name = "list_libraries" →
       lead = ""
       ∧ r = List ("v1/" +:+ url_quote (local f "mount_point") +:+ "/library"))
    ∧ (name ≠ "list_libraries" → lead = "/").
Proof.
  intros H. each_method H; simpl method_body.
  - eexists _, "/", _. split; [apply configure_request|]. by split.
  - eexists _, "/", _. split; [apply read_config_request|]. by split.
  - eexists _, "/", _. split; [apply create_or_update_role_request|]. by split.
  - eexists _, "/", _. split; [apply read_role_request|]. by split.
  - eexists _, "/", _. split; [apply list_roles_request|]. by split.
  - eexists _, "", _. split; [apply list_libraries_request|]. by split.
  - eexists _, "/", _. split; [apply read_library_request|]. by split.
  - eexists _, "/", _. split; [apply create_or_update_library_request|]. by split.
  - eexists _, "/", _. split; [apply delete_role_220_request|]. by split.
  - eexists _, "/", _. split; [apply get_library_status_request|]. by split.
  - eexists _, "/", _. split; [apply check_out_service_account_request|]. by split.
  - eexists _, "/", _. split; [apply check_in_service_account_request|]. by split.
Qed.

(** Every method bound in the class has distinct parameter names, one of
    which is [mount_point] with the default [DEFAULT_MOUNT_POINT]. *)
Lemma method_mount_point name m :
  ActiveDirectory !! name = Some m →
  NoDup (parameter_names (method_signature m))
  ∧ ∃ i, parameters (method_signature m) !! i = Some mount_point_parameter.
Proof.
  intros H. each_method H;
    (split; [by apply (bool_decide_unpack _)|]).
  - by exists 7.
  - by exists 0.
  - by exists 3.
  - by exists 1.
  - by exists 0.
  - by exists 0.
  - by exists 1.
  - by exists 5.
  - by exists 1.
  - by exists 1.
  - by exists 2.
  - by exists 2.
Qed.

Lemma rejected_sends_nothing (m : M Resp) e s r :
  rejected m e → sent (m s).2 ≠ sent s ++ [r].
Proof.
  intros H E. rewrite (H s) in E. simpl in E.
  apply (f_equal length) in E. rewrite length_app in E. simpl in E. lia.
Qed.

(** A call that reached the adapter was accepted by the binding of its
    arguments and ran the body of the method. *)
Lemma call_sent_inv name m args kw s r :
  ActiveDirectory !! name = Some m →
  sent (call name args kw s).2 = sent s ++ [r] →
  ∃ f, bind (method_signature m) args kw = Some f
       ∧ sent (method_body m f s).2 = sent s ++ [r].
Proof.
  intros Hm Hs. destruct (bind (method_signature m) args kw) as [f|] eqn:Hf.
  - exists f. by rewrite <- (call_bound _ _ _ _ _ Hm Hf).
  - by apply (rejected_sends_nothing _ _ _ _ (call_unbound _ _ _ _ Hm Hf)) in Hs.
Qed.

Lemma lookup_filtered items key v (d : gmap string value) :
  dict items !! key = Some v →
  d !! key = None →
  update d (remove_nones (dict items)) !! key = kept v.
Proof.
  intros Hv Hd. rewrite lookup_update, lookup_remove_nones, Hv, Hd.
  unfold kept. by destruct (is_none v).
Qed.

Lemma lookup_filtered_then_updated items key v (kwargs : gmap string value) :
  dict items !! key = Some v →
  kwargs !! key = None →
  update (remove_nones (dict items)) kwargs !! key = kept v.
Proof.
  intros Hv Hd. by rewrite lookup_update, lookup_remove_nones, Hv, Hd.
Qed.

Lemma configure_names_NoDup :
  NoDup (parameter_names (method_signature def_configure)).
Proof. by apply (bool_decide_unpack _). Qed.


Lemma configure_local args kw f i key :
  bind (method_signature def_configure) args kw = Some f →
  i < 7 →
  parameter_names (method_signature def_configure) !! i = Some key →
  local f key = default VNone (supplied args kw i key)
  ∧ dict [("binddn", local f "binddn"); ("bindpass", local f "bindpass");
          ("url", local f "url"); ("userdn", local f "userdn");
          ("upndomain", local f "upndomain"); ("ttl", local f "ttl");
          ("max_ttl", local f "max_ttl")] !! key = Some (local f key).
Proof.
  intros Hf Hi Hkey.
  assert (parameters (method_signature def_configure) !! i
          = Some (key, Some VNone)) as Hp.
  { do 7 (destruct i as [|i]; [by injection Hkey as <-|]). lia. }
  split; [by apply (bind_local _ _ _ _ i key VNone Hf configure_names_NoDup)|].
  do 7 (destruct i as [|i]; [by injection Hkey as <-|]). lia.
Qed.

(** A parameter of [configure] given positionally and again by keyword:
    the call raises [TypeError] and nothing reaches the adapter. *)
Lemma configure_given_twice args kw i key :
  parameter_names (method_signature def_configure) !! i = Some key →
  is_Some (args !! i) →
  is_Some (kw !! key) →
  rejected (call "configure" args kw) TypeError.
Proof.
  intros Hi [a Ha] [k Hk].
  apply (call_unbound "configure" def_configure); [reflexivity|].
  destruct (bind (method_signature def_configure) args kw) as [f|] eqn:Hf;
    [|done].
  unfold parameter_names in Hi. rewrite list_lookup_fmap in Hi.
  destruct (parameters (method_signature def_configure) !! i)
    as [[key' d]|] eqn:Hp; [|done].
  injection Hi as ->.
  destruct (bind_Some _ _ _ _ Hf) as (Hl & _).
  destruct (bind_parameters_once _ _ _ _ _ Hl i key d Hp) as [E|E];
    simpl in E; congruence.
Qed.

(** ** The claims *)

(** C1.  The claim has [delete_role(name)] issue one DELETE to
    [/v1/{mount_point}/roles/{name}].  The class body defines
    [delete_role] twice and the name keeps the second function, so the
    call issues exactly one DELETE, with no body, to
    [/v1/{mount_point}/library/{name}], which is never the roles path. *)
Theorem delete_role_deletes_library name mount_point :
  exactly_one_request (call "delete_role" [name; mount_point] ∅)
    (Delete ("/v1/" +:+ url_quote mount_point +:+ "/library/"
             +:+ url_quote name))
  ∧ "/v1/" +:+ url_quote mount_point +:+ "/library/" +:+ url_quote name
    ≠ "/v1/" +:+ url_quote mount_point +:+ "/roles/" +:+ url_quote name.
Proof.
  split.
  - change (call "delete_role" [name; mount_point] ∅)
      with (delete_role_220 name mount_point).
    apply delete_role_220_request.
  - intros E. apply (inj (String.app "/v1/")) in E.
    apply (inj (String.app _)) in E. discriminate E.
Qed.

(** C3.  The claim has the client expose [delete_library(name)].  The
    class binds no such name: whatever the arguments, the call raises
    [AttributeError] and nothing reaches the adapter. *)
Theorem delete_library_is_not_defined args kw :
  rejected (call "delete_library" args kw) AttributeError.
Proof. intros s. reflexivity. Qed.

(** C4.  [create_or_update_library] issues one POST to
    [/v1/{mount_point}/library/{name}]; the body always has the key
    [service_account_names] with the caller's value as it is, [None]
    included, and has [ttl], [max_ttl] and [disable_check_in_enforcement]
    exactly when their value is not [None]; it has no other key. *)
Theorem create_or_update_library_body name service_account_names ttl max_ttl
    disable_check_in_enforcement mount_point :
  ∃ json,
    exactly_one_request
      (create_or_update_library name service_account_names ttl max_ttl
         disable_check_in_enforcement mount_point)
      (Post ("/v1/" +:+ url_quote mount_point +:+ "/library/"
             +:+ url_quote name) json)
    ∧ json !! "service_account_names" = Some service_account_names
    ∧ json !! "ttl" = kept ttl
    ∧ json !! "max_ttl" = kept max_ttl
    ∧ json !! "disable_check_in_enforcement"
      = kept disable_check_in_enforcement
    ∧ ∀ key, key ∉ ["service_account_names"; "ttl"; "max_ttl";
                    "disable_check_in_enforcement"] →
        json !! key = None.
Proof.
  eexists. split; [apply create_or_update_library_request|].
  split; [|split; [|split; [|split]]];
    try (rewrite lookup_update, lookup_remove_nones; unfold kept).
  - reflexivity.
  - by destruct ttl.
  - by destruct max_ttl.
  - by destruct disable_check_in_enforcement.
  - intros key Hkey. rewrite lookup_update, lookup_remove_nones.
    rewrite !lookup_dict_None; [done| |];
      intros Hin; apply Hkey; revert Hin; simpl;
      rewrite !elem_of_cons; tauto.
Qed.

(** C5.  [check_out_service_account] issues one POST to
    [/v1/{mount_point}/library/{name}/check-out]; the body is
    [{"ttl": ttl}] when [ttl] is not [None] and the empty object
    otherwise. *)
Theorem check_out_service_account_body name ttl mount_point :
  exactly_one_request (check_out_service_account name ttl mount_point)
    (Post ("/v1/" +:+ url_quote mount_point +:+ "/library/"
           +:+ url_quote name +:+ "/check-out")
       (if is_none ttl then ∅ else {["ttl" := ttl]})).
Proof.
  replace (if is_none ttl then ∅ else {["ttl" := ttl]})
    with (update (dict []) (remove_nones (dict [("ttl", ttl)])))
    by (by destruct ttl).
  apply check_out_service_account_request.
Qed.

(** C6.  [check_in_service_account] issues one POST to
    [/v1/{mount_point}/library/{name}/check-in]; the body is
    [{"service_account_names": service_account_names}] when that value is
    not [None] and the empty object otherwise. *)
Theorem check_in_service_account_body name service_account_names
    mount_point :
  exactly_one_request
    (check_in_service_account name service_account_names mount_point)
    (Post ("/v1/" +:+ url_quote mount_point +:+ "/library/"
           +:+ url_quote name +:+ "/check-in")
       (if is_none service_account_names then ∅
        else {["service_account_names" := service_account_names]})).
Proof.
  replace (if is_none service_account_names then ∅
           else {["service_account_names" := service_account_names]})
    with (update (dict []) (remove_nones (dict [
            ("service_account_names", service_account_names)])))
    by (by destruct service_account_names).
  apply check_in_service_account_request.
Qed.

(** C7.  Every operation of the client has a parameter [mount_point]
    whose default is ["ad"]; in every accepted call the local variable is
    what the caller supplied for it, and ["ad"] otherwise, and its
    rendering is substituted into the request path right after [v1/]. *)
Theorem mount_point_of_every_operation name m args kw f :
  ActiveDirectory !! name = Some m →
  bind (method_signature m) args kw = Some f →
  DEFAULT_MOUNT_POINT = "ad"
  ∧ ∃ i r lead rest,
      parameters (method_signature m) !! i
        = Some ("mount_point", Some (VStr "ad"))
      ∧ local f "mount_point"
        = default (VStr "ad") (supplied args kw i "mount_point")
      ∧ exactly_one_request (call name args kw) r
      ∧ (lead = "/" ∨ lead = "")
      ∧ request_url r
        = lead +:+ "v1/" +:+ url_quote (local f "mount_point") +:+ "/"
          +:+ rest.
Proof.
  intros Hm Hf. split; [done|].
  destruct (method_mount_point name m Hm) as (Hnd & i & Hi).
  destruct (method_request name m f Hm) as (r & lead & rest & Hr & Hurl & Hl & Hn).
  exists i, r, lead, rest. split; [done|].
  split; [by eapply bind_local|].
  rewrite (call_bound _ _ _ _ _ Hm Hf). split; [done|]. split; [|done].
  destruct (decide (name = "list_libraries")) as [Hname|Hname].
  - right. by apply Hl.
  - left. by apply Hn.
Qed.

(** C8.  Every accepted call of an operation makes exactly one adapter
    call and its outcome is the adapter's: the response is returned as it
    is and a failure is raised as it is, whatever the adapter answers. *)
Theorem one_adapter_call_per_operation name m args kw f :
  ActiveDirectory !! name = Some m →
  bind (method_signature m) args kw = Some f →
  ∃ r, ∀ s,
    call name args kw s =
      (match (transmit r (world s)).1 with
       | inl e => inl (AdapterFailure e)
       | inr response => inr response
       end,
       {| world := (transmit r (world s)).2; sent := sent s ++ [r] |}).
Proof.
  intros Hm Hf.
  destruct (method_request name m f Hm) as (r & _ & _ & Hr & _).
  exists r. by rewrite (call_bound _ _ _ _ _ Hm Hf).
Qed.

(** C10.  [list_libraries] hands the adapter one LIST request whose path
    is [v1/{mount_point}/library], which does not begin with a slash; the
    path of every other operation begins with [/v1/]. *)
Theorem list_libraries_path_has_no_leading_slash name m args kw f :
  ActiveDirectory !! name = Some m →
  bind (method_signature m) args kw = Some f →
  ∃ r,
    exactly_one_request (call name args kw) r
    ∧ (name = "list_libraries" →
       r = List ("v1/" +:+ url_quote (local f "mount_point") +:+ "/library")
       ∧ ∀ rest, request_url r ≠ "/" +:+ rest)
    ∧ (name ≠ "list_libraries" → ∃ rest, request_url r = "/v1/" +:+ rest).
Proof.
  intros Hm Hf.
  destruct (method_request name m f Hm) as (r & lead & rest & Hr & Hurl & Hl & Hn).
  exists r. rewrite (call_bound _ _ _ _ _ Hm Hf). split; [done|]. split.
  - intros Hname. destruct (Hl Hname) as [_ ->]. split; [done|].
    intros rest'. discriminate.
  - intros Hname. rewrite (Hn Hname) in Hurl. eexists. exact Hurl.
Qed.

(** C9.  [configure] merges the extra keyword arguments into the JSON body
    after the None-filtering of the named parameters.  So every key of
    [kwargs] is transmitted with its value, also when the value is [None],
    and a key of [kwargs] that equals the key of a named parameter
    overwrites what the filter left of that parameter; a key that
    [kwargs] does not have carries the None-filtered value of its
    parameter, and no other key is in the body. *)
Theorem configure_merges_kwargs binddn bindpass url userdn upndomain ttl
    max_ttl mount_point args kwargs :
  let named := [("binddn", binddn); ("bindpass", bindpass); ("url", url);
                ("userdn", userdn); ("upndomain", upndomain); ("ttl", ttl);
                ("max_ttl", max_ttl)] in
  ∃ json,
    exactly_one_request
      (configure binddn bindpass url userdn upndomain ttl max_ttl mount_point
         args kwargs)
      (Post ("/v1/" +:+ url_quote mount_point +:+ "/config") json)
    ∧ (∀ key v, kwargs !! key = Some v → json !! key = Some v)
    ∧ (∀ key v v', (key, v) ∈ named → kwargs !! key = Some v' →
         json !! key = Some v')
    ∧ (∀ key v, (key, v) ∈ named → kwargs !! key = None →
         json !! key = kept v)
    ∧ (∀ key, key ∉ named.*1 → kwargs !! key = None → json !! key = None).
Proof.
  intros named. eexists. split; [apply configure_request|].
  assert (∀ key v, kwargs !! key = Some v →
            update (remove_nones (dict named)) kwargs !! key = Some v)
    as Hextra.
  { intros key v Hkey. by rewrite lookup_update, Hkey. }
  split; [exact Hextra|]. split; [|split].
  - intros key v v' _ Hkey. by apply Hextra.
  - intros key v Hin Hkey.
    apply lookup_filtered_then_updated; [|done].
    unfold named in Hin.
    repeat (apply elem_of_cons in Hin as [[= -> ->]|Hin]; [reflexivity|]).
    by apply elem_of_nil in Hin.
  - intros key Hnot Hkey.
    by rewrite lookup_update, Hkey, lookup_remove_nones, lookup_dict_None.
Qed.

(** X14.  In every accepted call to [configure] the keywords that name
    no parameter are merged into the body after the None-filtering of the
    named parameters, so such a key is transmitted even when its value is
    [None].  A keyword that has the name of a parameter is that parameter:
    it is never given twice and never lands among the extra keywords, and
    the seven body keys carry the None-filtered value of their
    parameter. *)
Theorem configure_extra_keywords args kw f :
  bind (method_signature def_configure) args kw = Some f →
  ∃ url json,
    exactly_one_request (call "configure" args kw) (Post url json)
    ∧ (∀ key v, kw !! key = Some v →
         key ∉ parameter_names (method_signature def_configure) →
         json !! key = Some v)
    ∧ (∀ i key,
         parameter_names (method_signature def_configure) !! i = Some key →
         (args !! i = None ∨ kw !! key = None)
         ∧ star_kwargs f !! key = None)
    ∧ (∀ i key, i < 7 →
         parameter_names (method_signature def_configure) !! i = Some key →
         json !! key = kept (default VNone (supplied args kw i key))).
Proof.
  intros Hf.
  assert (∀ i key,
    parameter_names (method_signature def_configure) !! i = Some key →
    (args !! i = None ∨ kw !! key = None) ∧ star_kwargs f !! key = None)
    as Hnamed.
  { intros i key Hi. split.
    - unfold parameter_names in Hi. rewrite list_lookup_fmap in Hi.
      destruct (parameters (method_signature def_configure) !! i)
        as [[key' d]|] eqn:Hp; [|done].
      injection Hi as ->.
      destruct (bind_Some _ _ _ _ Hf) as (Hl & _).
      apply (bind_parameters_once _ _ _ _ _ Hl i key d Hp).
    - rewrite (bind_star_kwargs _ _ _ _ key Hf).
      rewrite decide_True; [done|]. by eapply list_elem_of_lookup_2. }
  eexists _, _. split; [|split; [|split]].
  - rewrite (call_bound "configure" def_configure _ _ f eq_refl Hf).
    simpl method_body. apply configure_request.
  - intros key v Hkey Hextra. rewrite lookup_update.
    rewrite (bind_star_kwargs _ _ _ _ key Hf).
    rewrite decide_False by done. by rewrite Hkey.
  - exact Hnamed.
  - intros i key Hi Hkey. destruct (Hnamed i key Hkey) as [_ Hstar].
    destruct (configure_local args kw f i key Hf Hi Hkey) as [<- Hdict].
    by apply lookup_filtered_then_updated.
Qed.

(** C2 (as amended).  For every body-building operation and every
    optional parameter that ends up in its body: a parameter whose value
    passes through the None-filter is in the body, under its own name
    and with the caller's value, exactly when that value is not [None],
    so an explicit [0], [False] or empty value is transmitted and the key
    is left out when the value is [None], supplied or by default;
    [service_account_names] of [create_or_update_library] does not pass
    through the filter and is always in the body. *)
Theorem optional_parameters_in_body op i key (filtered : bool) args kw s url
    json :
  (op, i, key, filtered) ∈ body_parameters →
  sent (call op args kw s).2 = sent s ++ [Post url json] →
  json !! key =
    if filtered then kept (default VNone (supplied args kw i key))
    else Some (default VNone (supplied args kw i key)).
Proof.
  intros Hop Hs. unfold body_parameters in Hop.
  repeat (apply elem_of_cons in Hop as [[= -> -> -> ->]|Hop]);
    [..| by apply elem_of_nil in Hop];
    (eapply call_sent_inv in Hs as (f & Hf & Hs); [|reflexivity]);
    simpl method_body in Hs;
    match type of Hf with
    | bind ?sg _ _ = Some _ =>
        assert (NoDup (parameter_names sg)) as Hnd
          by (by apply (bool_decide_unpack _))
    end;
    match goal with
    | |- context [default VNone (supplied _ _ ?i ?key)] =>
        rewrite <- (bind_local _ _ _ _ i key VNone Hf Hnd eq_refl)
    end.
  1-7: apply (sent_request_inj _ _ _ _
                (configure_request _ _ _ _ _ _ _ _ _ _)) in Hs.
  8-9: apply (sent_request_inj _ _ _ _
                (create_or_update_role_request _ _ _ _)) in Hs.
  10-13: apply (sent_request_inj _ _ _ _
                  (create_or_update_library_request _ _ _ _ _ _)) in Hs.
  14: apply (sent_request_inj _ _ _ _
               (check_out_service_account_request _ _ _)) in Hs.
  15: apply (sent_request_inj _ _ _ _
               (check_in_service_account_request _ _ _)) in Hs.
  all: injection Hs as -> ->.
  1-7: apply lookup_filtered_then_updated; [reflexivity|];
       rewrite (bind_star_kwargs _ _ _ _ _ Hf); apply decide_True;
       by apply (bool_decide_unpack _).
  3: by rewrite lookup_update, lookup_remove_nones.
  all: by apply lookup_filtered.
Qed.

(** ** Further properties of the client *)

(** *** The calling convention, for every method *)

Lemma append_assoc (a b c : string) : (a +:+ b) +:+ c = a +:+ b +:+ c.
Proof.
  induction a as [|x a IH]; [done|].
  change (String x ((a +:+ b) +:+ c) = String x (a +:+ b +:+ c)).
  by rewrite IH.
Qed.

Lemma bind_None_parameters sg args kw :
  bind_parameters (parameters sg) 0 args kw = None → bind sg args kw = None.
Proof. intros H. unfold bind. rewrite H. by repeat case_match. Qed.

Lemma bind_None_positional sg args kw :
  var_positional sg = false →
  length (parameters sg) < length args →
  bind sg args kw = None.
Proof.
  intros Hvar Hlen. unfold bind. rewrite Hvar. simpl.
  unfold parameter_names. rewrite length_fmap.
  rewrite (bool_decide_eq_true_2 _ Hlen). by case_match.
Qed.

Lemma bind_None_keyword sg args kw key :
  var_keyword sg = false →
  is_Some (kw !! key) →
  key ∉ parameter_names sg →
  bind sg args kw = None.
Proof.
  intros Hvar Hkey Hname. unfold bind. rewrite Hvar. simpl.
  rewrite (bool_decide_eq_false_2 (dom kw ⊆ _)).
  - by repeat case_match.
  - intros Hsub. apply Hname.
    apply elem_of_dom in Hkey. apply Hsub in Hkey.
    by apply elem_of_list_to_set in Hkey.
Qed.

Lemma bind_locals_agree sg args kw f args' kw' f' i p :
  bind sg args kw = Some f →
  bind sg args' kw' = Some f' →
  NoDup (parameter_names sg) →
  parameters sg !! i = Some p →
  argument args kw i p = argument args' kw' i p →
  local f p.1 = local f' p.1.
Proof.
  intros (Hl & _)%bind_Some (Hl' & _)%bind_Some Hnd Hi Harg.
  destruct p as [name d]. unfold argument in Harg. simpl in *.
  unfold local. rewrite !lookup_total_alt.
  rewrite (bind_parameters_lookup _ _ _ _ _ Hl Hnd i name d Hi).
  rewrite (bind_parameters_lookup _ _ _ _ _ Hl' Hnd i name d Hi).
  simpl. by rewrite Harg.
Qed.

Lemma method_not_variadic name m :
  ActiveDirectory !! name = Some m →
  name ≠ "configure" →
  var_positional (method_signature m) = false
  ∧ var_keyword (method_signature m) = false.
Proof. intros H Hname. by each_method H. Qed.

(** X2.  A call that gives a parameter both positionally and by keyword
    raises [TypeError] and sends nothing, for every method of the class. *)
Theorem parameter_given_twice name m args kw i p :
  ActiveDirectory !! name = Some m →
  parameters (method_signature m) !! i = Some p →
  is_Some (args !! i) →
  is_Some (kw !! p.1) →
  rejected (call name args kw) TypeError.
Proof.
  intros Hm Hp [a Ha] [k Hk]. apply (call_unbound _ m _ _ Hm).
  destruct (bind (method_signature m) args kw) as [f|] eqn:Hf; [|done].
  destruct (bind_Some _ _ _ _ Hf) as (Hl & _). destruct p as [key d].
  destruct (bind_parameters_once _ _ _ _ _ Hl i key d Hp) as [E|E];
    simpl in *; congruence.
Qed.

(** X3.  A call that gives no value to a parameter without default (the
    [name] of the nine methods that have one) raises [TypeError] and sends
    nothing. *)
Theorem required_parameter_missing name m args kw i key :
  ActiveDirectory !! name = Some m →
  parameters (method_signature m) !! i = Some (key, None) →
  supplied args kw i key = None →
  rejected (call name args kw) TypeError.
Proof.
  intros Hm Hp Hnone. apply (call_unbound _ m _ _ Hm).
  destruct (bind (method_signature m) args kw) as [f|] eqn:Hf; [|done].
  destruct (method_mount_point name m Hm) as [Hnd _].
  destruct (bind_Some _ _ _ _ Hf) as (Hl & _).
  pose proof (bind_parameters_lookup _ _ _ _ _ Hl Hnd i key None Hp) as Hkey.
  simpl in Hkey. rewrite Hnone in Hkey.
  assert (is_Some (locals f !! key)) as [v Hv]; [|congruence].
  clear Hkey Hnone.
  assert (∀ ps j l, bind_parameters ps j args kw = Some l →
            ∀ x, x ∈ ps.*1 → is_Some (l !! x)) as Hdom.
  { clear. induction ps as [|[n0 d0] ps IH]; intros j l Hb x Hx.
    { by apply elem_of_nil in Hx. }
    simpl in Hb.
    assert (∃ v l', l = <[n0 := v]> l'
                    ∧ bind_parameters ps (S j) args kw = Some l')
      as (v & l' & -> & Hl').
    { destruct (args !! j), (kw !! n0); try done;
        try (destruct d0; [|done]);
        destruct (bind_parameters ps (S j) args kw); try done;
        injection Hb as <-; eauto. }
    destruct (decide (n0 = x)) as [->|Hne].
    - rewrite lookup_insert_eq. eauto.
    - rewrite lookup_insert_ne by done. apply (IH _ _ Hl').
      rewrite fmap_cons in Hx. apply elem_of_cons in Hx as [Hx|Hx]; [|done].
      simpl in Hx. congruence. }
  apply (Hdom _ _ _ Hl). apply list_elem_of_lookup. exists i.
  by rewrite list_lookup_fmap, Hp.
Qed.

(** X4.  Every method but [configure] raises [TypeError], and sends
    nothing, when called with more positional arguments than it has
    parameters. *)
Theorem too_many_positional_arguments name m args kw :
  ActiveDirectory !! name = Some m →
  name ≠ "configure" →
  length (parameters (method_signature m)) < length args →
  rejected (call name args kw) TypeError.
Proof.
  intros Hm Hname Hlen. apply (call_unbound _ m _ _ Hm).
  destruct (method_not_variadic name m Hm Hname) as [Hpos _].
  by apply bind_None_positional.
Qed.

(** X5.  Every method but [configure] raises [TypeError], and sends
    nothing, when called with a keyword that names none of its
    parameters. *)
Theorem unexpected_keyword name m args kw key :
  ActiveDirectory !! name = Some m →
  name ≠ "configure" →
  is_Some (kw !! key) →
  key ∉ parameter_names (method_signature m) →
  rejected (call name args kw) TypeError.
Proof.
  intros Hm Hname Hkey Hparam. apply (call_unbound _ m _ _ Hm).
  destruct (method_not_variadic name m Hm Hname) as [_ Hkw].
  by apply (bind_None_keyword _ _ _ key).
Qed.

Lemma bind_parameters_take ps i args kw :
  bind_parameters ps i (take (i + length ps) args) kw
  = bind_parameters ps i args kw.
Proof.
  revert i. induction ps as [|[n0 d0] ps IH]; intros i; [done|].
  simpl. rewrite lookup_take_lt by lia.
  replace (i + S (length ps)) with (S i + length ps) by lia.
  by rewrite IH.
Qed.

(** X6.  [configure] collects positional arguments beyond its eight
    parameters in [*args] and never looks at them: the call behaves as
    without them. *)
Theorem configure_ignores_extra_positional args kw :
  call "configure" args kw = call "configure" (take 8 args) kw.
Proof.
  unfold call.
  change (ActiveDirectory !! "configure") with (Some def_configure).
  cbv beta iota. unfold bind.
  change (var_positional (method_signature def_configure)) with true.
  cbv beta iota. simpl negb. simpl andb.
  rewrite <- (bind_parameters_take _ 0 args kw).
  change (0 + length (parameters (method_signature def_configure))) with 8.
  destruct (bool_decide ("self" ∈ dom kw)); [done|].
  destruct (bind_parameters _ 0 (take 8 args) kw) as [l|]; [|done].
  reflexivity.
Qed.

(** X7.  Positional and keyword passing are interchangeable, and so are
    leaving a parameter out and passing its default: two accepted calls of
    a method that give every parameter the same value and carry the same
    extra keywords are the same computation. *)
Theorem same_arguments_same_call name m args kw f args' kw' f' :
  ActiveDirectory !! name = Some m →
  bind (method_signature m) args kw = Some f →
  bind (method_signature m) args' kw' = Some f' →
  (∀ i p, parameters (method_signature m) !! i = Some p →
          argument args kw i p = argument args' kw' i p) →
  star_kwargs f = star_kwargs f' →
  call name args kw = call name args' kw'.
Proof.
  intros Hm Hf Hf' Hargs Hkw.
  rewrite (call_bound _ _ _ _ _ Hm Hf), (call_bound _ _ _ _ _ Hm Hf').
  destruct (method_mount_point name m Hm) as [Hnd _].
  assert (∀ i p, parameters (method_signature m) !! i = Some p →
                 local f p.1 = local f' p.1) as Hloc.
  { intros i p Hp. eapply bind_locals_agree; eauto. }
  clear Hf Hf' Hargs Hnd.
  each_method Hm; simpl method_body;
    pose proof (Hloc 0 _ eq_refl) as H0; simpl in H0; rewrite ?H0;
    try (pose proof (Hloc 1 _ eq_refl) as H1; simpl in H1; rewrite ?H1);
    try (pose proof (Hloc 2 _ eq_refl) as H2; simpl in H2; rewrite ?H2);
    try (pose proof (Hloc 3 _ eq_refl) as H3; simpl in H3; rewrite ?H3);
    try (pose proof (Hloc 4 _ eq_refl) as H4; simpl in H4; rewrite ?H4);
    try (pose proof (Hloc 5 _ eq_refl) as H5; simpl in H5; rewrite ?H5);
    try (pose proof (Hloc 6 _ eq_refl) as H6; simpl in H6; rewrite ?H6);
    try (pose proof (Hloc 7 _ eq_refl) as H7; simpl in H7; rewrite ?H7);
    rewrite ?Hkw; reflexivity.
Qed.

(** *** Paths, verbs and bodies *)

(** X8.  [create_or_update_role] issues one POST to
    [/v1/{mount_point}/roles/{name}]; the body always has the key [name]
    with the name that is also in the path, has [service_account_name] and
    [ttl] exactly when their value is not [None], and has no other key. *)
Theorem create_or_update_role_body name service_account_name ttl mount_point :
  ∃ json,
    exactly_one_request
      (create_or_update_role name service_account_name ttl mount_point)
      (Post ("/v1/" +:+ url_quote mount_point +:+ "/roles/"
             +:+ url_quote name) json)
    ∧ json !! "name" = Some name
    ∧ json !! "service_account_name" = kept service_account_name
    ∧ json !! "ttl" = kept ttl
    ∧ ∀ key, key ∉ ["name"; "service_account_name"; "ttl"] →
        json !! key = None.
Proof.
  eexists. split; [apply create_or_update_role_request|].
  split; [|split; [|split]];
    try (rewrite lookup_update, lookup_remove_nones; unfold kept).
  - reflexivity.
  - by destruct service_account_name.
  - by destruct ttl.
  - intros key Hkey. rewrite lookup_update, lookup_remove_nones.
    rewrite !lookup_dict_None; [done| |];
      intros Hin; apply Hkey; revert Hin; simpl;
      rewrite !elem_of_cons; tauto.
Qed.

(** X9.  What is written can be read back at the same address:
    [read_config] GETs the URL that [configure] POSTs to, and [read_role]
    GETs the URL that [create_or_update_role] POSTs to, which is the URL
    that [list_roles] lists followed by [/] and the name. *)
Theorem config_and_role_addresses binddn bindpass url userdn upndomain ttl
    max_ttl args kwargs name service_account_name role_ttl mount_point :
  ∃ config_url config_json role_url role_json roles_url,
    exactly_one_request
      (configure binddn bindpass url userdn upndomain ttl max_ttl mount_point
         args kwargs)
      (Post config_url config_json)
    ∧ exactly_one_request (read_config mount_point) (Get config_url)
    ∧ exactly_one_request
        (create_or_update_role name service_account_name role_ttl mount_point)
        (Post role_url role_json)
    ∧ exactly_one_request (read_role name mount_point) (Get role_url)
    ∧ exactly_one_request (list_roles mount_point) (List roles_url)
    ∧ role_url = roles_url +:+ "/" +:+ url_quote name.
Proof.
  eexists _, _, _, _, _.
  split; [apply configure_request|].
  split; [apply read_config_request|].
  split; [apply create_or_update_role_request|].
  split; [apply read_role_request|].
  split; [apply list_roles_request|].
  by rewrite !append_assoc.
Qed.

(** X10.  The operations on one library share one address:
    [create_or_update_library] POSTs to, [read_library] GETs and the
    [delete_role] of line 220 DELETEs the same URL; [get_library_status],
    [check_out_service_account] and [check_in_service_account] go to that
    URL followed by [/status], [/check-out] and [/check-in]; and it is a
    slash, the path that [list_libraries] lists, a slash and the name. *)
Theorem library_addresses name service_account_names ttl max_ttl
    disable_check_in_enforcement check_out_ttl checked_in mount_point :
  ∃ library_url json json_out json_in libraries_url,
    exactly_one_request
      (create_or_update_library name service_account_names ttl max_ttl
         disable_check_in_enforcement mount_point)
      (Post library_url json)
    ∧ exactly_one_request (read_library name mount_point) (Get library_url)
    ∧ exactly_one_request (delete_role_220 name mount_point)
        (Delete library_url)
    ∧ exactly_one_request (get_library_status name mount_point)
        (Get (library_url +:+ "/status"))
    ∧ exactly_one_request
        (check_out_service_account name check_out_ttl mount_point)
        (Post (library_url +:+ "/check-out") json_out)
    ∧ exactly_one_request
        (check_in_service_account name checked_in mount_point)
        (Post (library_url +:+ "/check-in") json_in)
    ∧ exactly_one_request (list_libraries mount_point) (List libraries_url)
    ∧ library_url = "/" +:+ libraries_url +:+ "/" +:+ url_quote name.
Proof.
  eexists _, _, _, _, _.
  split; [apply create_or_update_library_request|].
  split; [apply read_library_request|].
  split; [apply delete_role_220_request|].
  split.
  { replace ((_ +:+ _) +:+ "/status")
      with ("/v1/" +:+ url_quote mount_point +:+ "/library/"
            +:+ url_quote name +:+ "/status");
      [apply get_library_status_request|].
    rewrite !append_assoc. reflexivity. }
  split.
  { replace ((_ +:+ _) +:+ "/check-out")
      with ("/v1/" +:+ url_quote mount_point +:+ "/library/"
            +:+ url_quote name +:+ "/check-out");
      [apply check_out_service_account_request|].
    rewrite !append_assoc. reflexivity. }
  split.
  { replace ((_ +:+ _) +:+ "/check-in")
      with ("/v1/" +:+ url_quote mount_point +:+ "/library/"
            +:+ url_quote name +:+ "/check-in");
      [apply check_in_service_account_request|].
    rewrite !append_assoc. reflexivity. }
  split; [apply list_libraries_request|].
  rewrite !append_assoc. reflexivity.
Qed.

(** A call that reached the adapter went through a method of the class,
    with its arguments bound. *)
Lemma call_request_inv name args kw s r :
  sent (call name args kw s).2 = sent s ++ [r] →
  ∃ m f, ActiveDirectory !! name = Some m
         ∧ bind (method_signature m) args kw = Some f
         ∧ sent (method_body m f s).2 = sent s ++ [r].
Proof.
  intros Hs. destruct (ActiveDirectory !! name) as [m|] eqn:Hm.
  - destruct (call_sent_inv name m args kw s r Hm Hs) as (f & Hf & Hb).
    by exists m, f.
  - exfalso. revert Hs. apply (rejected_sends_nothing _ AttributeError).
    intros s'. unfold call. by rewrite Hm.
Qed.

Ltac decide_membership :=
  split;
  [ intros Hverb; first [discriminate Hverb | by apply (bool_decide_unpack _)]
  | intros Hin; first [reflexivity | by apply (bool_decide_pack _) in Hin] ].

(** X11.  The verb of every operation: [configure], the two
    [create_or_update] methods, check-out and check-in POST; [delete_role]
    alone DELETEs; [list_roles] and [list_libraries] LIST; the four
    remaining read methods GET.  So no read operation sends a body or
    asks for a change. *)
Theorem verb_of_every_operation name m args kw f :
  ActiveDirectory !! name = Some m →
  bind (method_signature m) args kw = Some f →
  ∃ r,
    exactly_one_request (call name args kw) r
    ∧ (request_verb r = POST ↔
       name ∈ ["configure"; "create_or_update_role";
               "create_or_update_library"; "check_out_service_account";
               "check_in_service_account"])
    ∧ (request_verb r = DELETE ↔ name = "delete_role")
    ∧ (request_verb r = LIST ↔ name ∈ ["list_roles"; "list_libraries"])
    ∧ (request_verb r = GET ↔
       name ∈ ["read_config"; "read_role"; "read_library";
               "get_library_status"]).
Proof.
  intros Hm Hf. rewrite (call_bound _ _ _ _ _ Hm Hf). clear Hf.
  each_method Hm; simpl method_body; eexists.
  - split; [apply configure_request|]. (split; [|split; [|split]]); decide_membership.
  - split; [apply read_config_request|]. (split; [|split; [|split]]); decide_membership.
  - split; [apply create_or_update_role_request|].
    (split; [|split; [|split]]); decide_membership.
  - split; [apply read_role_request|]. (split; [|split; [|split]]); decide_membership.
  - split; [apply list_roles_request|]. (split; [|split; [|split]]); decide_membership.
  - split; [apply list_libraries_request|]. (split; [|split; [|split]]); decide_membership.
  - split; [apply read_library_request|]. (split; [|split; [|split]]); decide_membership.
  - split; [apply create_or_update_library_request|].
    (split; [|split; [|split]]); decide_membership.
  - split; [apply delete_role_220_request|]. (split; [|split; [|split]]); decide_membership.
  - split; [apply get_library_status_request|].
    (split; [|split; [|split]]); decide_membership.
  - split; [apply check_out_service_account_request|].
    (split; [|split; [|split]]); decide_membership.
  - split; [apply check_in_service_account_request|].
    (split; [|split; [|split]]); decide_membership.
Qed.

(** X12.  The mount point goes into the path only: no body sent by any
    call has a key [mount_point]. *)
Theorem mount_point_never_in_body name args kw s url json :
  sent (call name args kw s).2 = sent s ++ [Post url json] →
  json !! "mount_point" = None.
Proof.
  intros (m & f & Hm & Hf & Hs)%call_request_inv.
  each_method Hm; simpl method_body in Hs.
  - apply (sent_request_inj _ _ _ _
             (configure_request _ _ _ _ _ _ _ _ _ _)) in Hs.
    injection Hs as -> ->.
    rewrite lookup_update, (bind_star_kwargs _ _ _ _ _ Hf).
    rewrite decide_True by (by apply (bool_decide_unpack _)).
    by rewrite lookup_remove_nones.
  - by apply (sent_request_inj _ _ _ _ (read_config_request _)) in Hs.
  - apply (sent_request_inj _ _ _ _
             (create_or_update_role_request _ _ _ _)) in Hs.
    injection Hs as -> ->. by rewrite lookup_update, lookup_remove_nones.
  - by apply (sent_request_inj _ _ _ _ (read_role_request _ _)) in Hs.
  - by apply (sent_request_inj _ _ _ _ (list_roles_request _)) in Hs.
  - by apply (sent_request_inj _ _ _ _ (list_libraries_request _)) in Hs.
  - by apply (sent_request_inj _ _ _ _ (read_library_request _ _)) in Hs.
  - apply (sent_request_inj _ _ _ _
             (create_or_update_library_request _ _ _ _ _ _)) in Hs.
    injection Hs as -> ->. by rewrite lookup_update, lookup_remove_nones.
  - by apply (sent_request_inj _ _ _ _ (delete_role_220_request _ _)) in Hs.
  - by apply (sent_request_inj _ _ _ _ (get_library_status_request _ _)) in Hs.
  - apply (sent_request_inj _ _ _ _
             (check_out_service_account_request _ _ _)) in Hs.
    injection Hs as -> ->. by rewrite lookup_update, lookup_remove_nones.
  - apply (sent_request_inj _ _ _ _
             (check_in_service_account_request _ _ _)) in Hs.
    injection Hs as -> ->. by rewrite lookup_update, lookup_remove_nones.
Qed.

(** X13.  Every DELETE that a call of the client sends comes from
    [delete_role] and addresses [/v1/{mount_point}/library/{name}]: the
    client has no way to send a DELETE to a roles path. *)
Theorem every_delete_addresses_a_library name args kw s url :
  sent (call name args kw s).2 = sent s ++ [Delete url] →
  name = "delete_role"
  ∧ ∃ f, bind (method_signature def_delete_role_220) args kw = Some f
         ∧ url = "/v1/" +:+ url_quote (local f "mount_point") +:+ "/library/"
                 +:+ url_quote (local f "name").
Proof.
  intros (m & f & Hm & Hf & Hs)%call_request_inv.
  each_method Hm; simpl method_body in Hs.
  - by apply (sent_request_inj _ _ _ _
                (configure_request _ _ _ _ _ _ _ _ _ _)) in Hs.
  - by apply (sent_request_inj _ _ _ _ (read_config_request _)) in Hs.
  - by apply (sent_request_inj _ _ _ _
                (create_or_update_role_request _ _ _ _)) in Hs.
  - by apply (sent_request_inj _ _ _ _ (read_role_request _ _)) in Hs.
  - by apply (sent_request_inj _ _ _ _ (list_roles_request _)) in Hs.
  - by apply (sent_request_inj _ _ _ _ (list_libraries_request _)) in Hs.
  - by apply (sent_request_inj _ _ _ _ (read_library_request _ _)) in Hs.
  - by apply (sent_request_inj _ _ _ _
                (create_or_update_library_request _ _ _ _ _ _)) in Hs.
  - apply (sent_request_inj _ _ _ _ (delete_role_220_request _ _)) in Hs.
    injection Hs as ->. split; [done|]. by exists f.
  - by apply (sent_request_inj _ _ _ _ (get_library_status_request _ _)) in Hs.
  - by apply (sent_request_inj _ _ _ _
                (check_out_service_account_request _ _ _)) in Hs.
  - by apply (sent_request_inj _ _ _ _
                (check_in_service_account_request _ _ _)) in Hs.
Qed.

End ActiveDirectory.

(** ** The client on concrete calls *)

(** [delete_role("x")] on the default mount deletes the library [x]. *)
Example delete_role_x :
  call verbatim status_adapter "delete_role" [VStr "x"] ∅ fresh
  = (inr 204%Z, {| world := tt; sent := [Delete "/v1/ad/library/x"] |}).
Proof. reflexivity. Qed.

(** [delete_library("x")] raises [AttributeError]; nothing is sent. *)
Example delete_library_x :
  call verbatim status_adapter "delete_library" [VStr "x"] ∅ fresh
  = (inl (Raised AttributeError), fresh).
Proof. reflexivity. Qed.

(** A failure of the adapter reaches the caller as it is. *)
Example read_role_failure :
  call verbatim failing_adapter "read_role" [VStr "ops"] ∅ fresh
  = (inl (AdapterFailure "connection refused"),
     {| world := tt; sent := [Get "/v1/ad/roles/ops"] |}).
Proof. reflexivity. Qed.

(** [configure(ttl=None)]: the keyword is the parameter and is filtered. *)
Example configure_ttl_None :
  call verbatim status_adapter "configure" [] {["ttl" := VNone]} fresh
  = (inr 204%Z, {| world := tt; sent := [Post "/v1/ad/config" ∅] |}).
Proof. reflexivity. Qed.

(** [configure(verify=None)]: an extra keyword is sent even when [None]. *)
Example configure_extra_None :
  call verbatim status_adapter "configure" [] {["verify" := VNone]} fresh
  = (inr 204%Z,
     {| world := tt;
        sent := [Post "/v1/ad/config" {["verify" := VNone]}] |}).
Proof. reflexivity. Qed.

(** [check_out_service_account("lib", ttl=0)] sends the zero. *)
Example check_out_ttl_zero :
  call verbatim status_adapter "check_out_service_account" [VStr "lib"]
    {["ttl" := VInt 0]} fresh
  = (inr 204%Z,
     {| world := tt;
        sent := [Post "/v1/ad/library/lib/check-out" {["ttl" := VInt 0]}] |}).
Proof. reflexivity. Qed.

(** ** Witnesses and counterexamples *)

(** C7 at [list_roles()]: the path addresses the mount [ad]. *)
Lemma mount_point_of_every_operation_witness :
  ActiveDirectory verbatim status_adapter !! "list_roles"
    = Some (def_list_roles verbatim status_adapter)
  ∧ ∃ f,
      bind (method_signature (def_list_roles verbatim status_adapter)) [] ∅
        = Some f
      ∧ DEFAULT_MOUNT_POINT = "ad"
      ∧ ∃ i r lead rest,
          parameters (method_signature (def_list_roles verbatim status_adapter))
            !! i = Some ("mount_point", Some (VStr "ad"))
          ∧ local f "mount_point"
            = default (VStr "ad") (supplied [] ∅ i "mount_point")
          ∧ exactly_one_request status_adapter
              (call verbatim status_adapter "list_roles" [] ∅) r
          ∧ (lead = "/" ∨ lead = "")
          ∧ request_url r
            = lead +:+ "v1/" +:+ verbatim (local f "mount_point") +:+ "/"
              +:+ rest.
Proof.
  split; [reflexivity|]. eexists. split; [reflexivity|].
  apply (mount_point_of_every_operation verbatim status_adapter "list_roles");
    reflexivity.
Defined.

(** C8 at [check_out_service_account("lib", 0)]. *)
Lemma one_adapter_call_per_operation_witness :
  ActiveDirectory verbatim status_adapter !! "check_out_service_account"
    = Some (def_check_out_service_account verbatim status_adapter)
  ∧ ∃ f,
      bind (method_signature
              (def_check_out_service_account verbatim status_adapter))
        [VStr "lib"; VInt 0] ∅ = Some f
      ∧ ∃ r, ∀ s,
          call verbatim status_adapter "check_out_service_account"
            [VStr "lib"; VInt 0] ∅ s =
            (match (transmit status_adapter r (world s)).1 with
             | inl e => inl (AdapterFailure e)
             | inr response => inr response
             end,
             {| world := (transmit status_adapter r (world s)).2;
                sent := sent s ++ [r] |}).
Proof.
  split; [reflexivity|]. eexists. split; [reflexivity|].
  eapply (one_adapter_call_per_operation verbatim status_adapter
            "check_out_service_account"); reflexivity.
Defined.

(** C10 at [list_libraries()]. *)
Lemma list_libraries_path_has_no_leading_slash_witness :
  ActiveDirectory verbatim status_adapter !! "list_libraries"
    = Some (def_list_libraries verbatim status_adapter)
  ∧ ∃ f,
      bind (method_signature (def_list_libraries verbatim status_adapter))
        [] ∅ = Some f
      ∧ ∃ r,
          exactly_one_request status_adapter
            (call verbatim status_adapter "list_libraries" [] ∅) r
          ∧ ("list_libraries" = "list_libraries" →
             r = List ("v1/" +:+ verbatim (local f "mount_point")
                       +:+ "/library")
             ∧ ∀ rest, request_url r ≠ "/" +:+ rest)
          ∧ ("list_libraries" ≠ "list_libraries" →
             ∃ rest, request_url r = "/v1/" +:+ rest).
Proof.
  split; [reflexivity|]. eexists. split; [reflexivity|].
  eapply (list_libraries_path_has_no_leading_slash verbatim status_adapter
            "list_libraries"); reflexivity.
Defined.

(** X14 at [configure(verify=None)]. *)
Lemma configure_extra_keywords_witness :
  ∃ f,
    bind (method_signature (def_configure verbatim status_adapter))
      [] {["verify" := VNone]} = Some f
    ∧ ∃ url json,
        exactly_one_request status_adapter
          (call verbatim status_adapter "configure" [] {["verify" := VNone]})
          (Post url json)
        ∧ json !! "verify" = Some VNone.
Proof.
  eexists. split; [reflexivity|].
  edestruct (configure_extra_keywords verbatim status_adapter
               [] {["verify" := VNone]})
    as (url & json & Hone & Hextra & _); [reflexivity|].
  exists url, json. split; [exact Hone|].
  apply Hextra; [reflexivity|]. by apply (bool_decide_unpack _).
Defined.

(** C2 (as amended) at [check_out_service_account("lib", 0)]. *)
Lemma optional_parameters_in_body_witness :
  ("check_out_service_account", 1, "ttl", true) ∈ body_parameters
  ∧ sent (call verbatim status_adapter "check_out_service_account"
            [VStr "lib"; VInt 0] ∅ fresh).2
    = sent fresh
      ++ [Post "/v1/ad/library/lib/check-out" {["ttl" := VInt 0]}]
  ∧ ({["ttl" := VInt 0]} : gmap string value) !! "ttl" = Some (VInt 0).
Proof.
  split; [by apply (bool_decide_unpack _)|]. split; [reflexivity|].
  apply (optional_parameters_in_body verbatim status_adapter
           "check_out_service_account" 1 "ttl" true [VStr "lib"; VInt 0] ∅
           fresh "/v1/ad/library/lib/check-out");
    [by apply (bool_decide_unpack _) | reflexivity].
Defined.

(** C2, counterexample: [create_or_update_library("lib")] does not supply
    [service_account_names], and the body has the key all the same. *)
Lemma service_account_names_sent_when_not_supplied :
  ¬ omitted_iff_not_supplied verbatim status_adapter
      "create_or_update_library" 1 "service_account_names" [VStr "lib"] ∅.
Proof.
  intros H.
  destruct (H fresh "/v1/ad/library/lib" {["service_account_names" := VNone]}
              eq_refl) as [_ Hnone].
  specialize (Hnone eq_refl). discriminate Hnone.
Qed.

(** ** Witnesses of the further properties *)

(** X2 at [read_role("ops", name="x")]. *)
Lemma parameter_given_twice_witness :
  is_Some ([VStr "ops"] !! 0)
  ∧ is_Some (({["name" := VStr "x"]} : gmap string value) !! "name")
  ∧ rejected
      (call verbatim status_adapter "read_role" [VStr "ops"]
         {["name" := VStr "x"]})
      TypeError.
Proof.
  split; [by eexists|]. split; [by eexists|].
  eapply (parameter_given_twice verbatim status_adapter "read_role"
            _ _ _ 0 ("name", None));
    [reflexivity | reflexivity | by eexists | by eexists].
Defined.

(** X3 at [get_library_status()]. *)
Lemma required_parameter_missing_witness :
  supplied [] ∅ 0 "name" = None
  ∧ rejected (call verbatim status_adapter "get_library_status" [] ∅)
      TypeError.
Proof.
  split; [reflexivity|].
  eapply (required_parameter_missing verbatim status_adapter
            "get_library_status" _ _ _ 0 "name"); reflexivity.
Defined.

(** X4 at [list_roles("a", "b")]. *)
Lemma too_many_positional_arguments_witness :
  "list_roles" ≠ "configure"
  ∧ rejected
      (call verbatim status_adapter "list_roles" [VStr "a"; VStr "b"] ∅)
      TypeError.
Proof.
  split; [discriminate|].
  eapply (too_many_positional_arguments verbatim status_adapter "list_roles");
    [reflexivity | discriminate | simpl; lia].
Defined.

(** X5 at [read_config(verify=True)]. *)
Lemma unexpected_keyword_witness :
  "read_config" ≠ "configure"
  ∧ rejected
      (call verbatim status_adapter "read_config" []
         {["verify" := VBool true]})
      TypeError.
Proof.
  split; [discriminate|].
  eapply (unexpected_keyword verbatim status_adapter "read_config"
            _ _ _ "verify");
    [reflexivity | discriminate | by eexists
    | by apply (bool_decide_unpack _)].
Defined.

(** X7 at [read_role("ops", "corp")] and
    [read_role(mount_point="corp", name="ops")]. *)
Lemma same_arguments_same_call_witness :
  call verbatim status_adapter "read_role" [VStr "ops"; VStr "corp"] ∅
  = call verbatim status_adapter "read_role" []
      (<["name" := VStr "ops"]> {["mount_point" := VStr "corp"]}).
Proof.
  eapply (same_arguments_same_call verbatim status_adapter "read_role");
    [reflexivity | reflexivity | reflexivity | | reflexivity].
  intros [|[|i]] p Hp; [by injection Hp as <-..|done].
Defined.

(** X11 at [check_in_service_account("lib")]. *)
Lemma verb_of_every_operation_witness :
  ∃ r,
    exactly_one_request status_adapter
      (call verbatim status_adapter "check_in_service_account"
         [VStr "lib"] ∅) r
    ∧ request_verb r = POST.
Proof.
  edestruct (verb_of_every_operation verbatim status_adapter
               "check_in_service_account"
               (def_check_in_service_account verbatim status_adapter)
               [VStr "lib"] ∅)
    as (r & Hone & Hpost & _); [reflexivity | reflexivity |].
  exists r. split; [exact Hone|].
  apply Hpost. by apply (bool_decide_unpack _).
Defined.

(** X12 at [create_or_update_role("ops", None, None, "corp")]. *)
Lemma mount_point_never_in_body_witness :
  sent (call verbatim status_adapter "create_or_update_role"
          [VStr "ops"; VNone; VNone; VStr "corp"] ∅ fresh).2
  = sent fresh ++ [Post "/v1/corp/roles/ops" {["name" := VStr "ops"]}]
  ∧ ({["name" := VStr "ops"]} : gmap string value) !! "mount_point" = None.
Proof.
  split; [reflexivity|].
  apply (mount_point_never_in_body verbatim status_adapter
           "create_or_update_role" [VStr "ops"; VNone; VNone; VStr "corp"] ∅
           fresh "/v1/corp/roles/ops").
  reflexivity.
Defined.

(** X13 at [delete_role("x")]. *)
Lemma every_delete_addresses_a_library_witness :
  sent (call verbatim status_adapter "delete_role" [VStr "x"] ∅ fresh).2
  = sent fresh ++ [Delete "/v1/ad/library/x"]
  ∧ "delete_role" = "delete_role"
  ∧ ∃ f,
      bind (method_signature (def_delete_role_220 verbatim status_adapter))
        [VStr "x"] ∅ = Some f
      ∧ "/v1/ad/library/x"
        = "/v1/" +:+ verbatim (local f "mount_point") +:+ "/library/"
          +:+ verbatim (local f "name").
Proof.
  split; [reflexivity|].
  apply (every_delete_addresses_a_library verbatim status_adapter
           "delete_role" [VStr "x"] ∅ fresh).
  reflexivity.
Defined.
